(** * go-ipset: a wrapper around the ipset command-line utility

    A shallow embedding of [ipset.go] (package [ipset]) and the properties
    of its request-building, process-execution and output-parsing path.

    Layout:
    - [utf8], [unicode], [strings], [errors]: the parts of Go's standard
      library the package calls, modelled on byte strings;
    - [exec]: the host interface behind [os/exec] ([LookPath], [Cmd.Run]);
    - [ipset]: the package itself, method by method;
    - [filepath], [lp_unix]: Go's lookup of a binary along the search path;
    - the properties, grouped by what they are about. *)

From Stdlib Require Import String Ascii List Bool Arith NArith ZArith Lia.
From Stdlib Require DecimalString.
Import ListNotations.

Local Open Scope string_scope.
Local Open Scope list_scope.

(** Go strings are immutable byte sequences: [string] over 8-bit [ascii]
    is exactly that.  A [[]string] is a [list string]; Go's nil slice and
    its empty slice both have length zero and are both the empty list. *)

Definition LF : ascii := "010"%char.
Definition nl : string := String LF EmptyString.

Fixpoint drop (n : nat) (s : string) : string :=
  match n, s with
  | O, _ => s
  | S _, EmptyString => EmptyString
  | S k, String _ t => drop k t
  end.

Fixpoint take (n : nat) (s : string) : string :=
  match n, s with
  | O, _ => EmptyString
  | S _, EmptyString => EmptyString
  | S k, String c t => String c (take k t)
  end.

(** ** Package unicode/utf8 *)
Module utf8.

Definition RuneError : N := 0xFFFD%N.
Definition RuneSelf : N := 0x80%N.

(** What the table [first] says of a leading byte: plain ASCII, an
    invalid leading byte, or the start of a sequence of [sz] bytes whose
    second byte must lie in [lo, hi]. *)
Inductive firstInfo :=
| as_
| xx
| seq_ (sz : nat) (lo hi : N).

Definition locb : N := 0x80%N.
Definition hicb : N := 0xBF%N.

Definition first (b : N) : firstInfo :=
  if (b <? 0x80)%N then as_
  else if (b <? 0xC2)%N then xx
  else if (b <? 0xE0)%N then seq_ 2 locb hicb
  else if (b =? 0xE0)%N then seq_ 3 0xA0%N hicb
  else if (b <? 0xED)%N then seq_ 3 locb hicb
  else if (b =? 0xED)%N then seq_ 3 locb 0x9F%N
  else if (b <? 0xF0)%N then seq_ 3 locb hicb
  else if (b =? 0xF0)%N then seq_ 4 0x90%N hicb
  else if (b <? 0xF4)%N then seq_ 4 locb hicb
  else if (b =? 0xF4)%N then seq_ 4 locb 0x8F%N
  else xx.

Definition cont (b : N) : bool := ((locb <=? b) && (b <=? hicb))%N.
Definition low (bits b : N) : N := N.land b (N.ones bits).

(** [DecodeRuneInString s]: the first rune of [s] and its width in bytes;
    [(RuneError, 0)] on the empty string, [(RuneError, 1)] on an invalid
    encoding. *)
Definition DecodeRuneInString (s : string) : N * nat :=
  match s with
  | EmptyString => (RuneError, 0)
  | String c0 t0 =>
    let s0 := N_of_ascii c0 in
    match first s0 with
    | as_ => (s0, 1)
    | xx => (RuneError, 1)
    | seq_ sz lo hi =>
      match t0 with
      | EmptyString => (RuneError, 1)
      | String c1 t1 =>
        let s1 := N_of_ascii c1 in
        if ((s1 <? lo) || (hi <? s1))%N then (RuneError, 1)
        else if (sz <=? 2)%nat then
          (N.lor (N.shiftl (low 5 s0) 6) (low 6 s1), 2)
        else
          match t1 with
          | EmptyString => (RuneError, 1)
          | String c2 t2 =>
            let s2 := N_of_ascii c2 in
            if negb (cont s2) then (RuneError, 1)
            else if (sz <=? 3)%nat then
              (N.lor (N.shiftl (low 4 s0) 12)
                 (N.lor (N.shiftl (low 6 s1) 6) (low 6 s2)), 3)
            else
              match t2 with
              | EmptyString => (RuneError, 1)
              | String c3 _ =>
                let s3 := N_of_ascii c3 in
                if negb (cont s3) then (RuneError, 1)
                else
                  (N.lor (N.shiftl (low 3 s0) 18)
                     (N.lor (N.shiftl (low 6 s1) 12)
                        (N.lor (N.shiftl (low 6 s2) 6) (low 6 s3))), 4)
              end
          end
      end
    end
  end.

End utf8.

(** ** Package unicode *)
Module unicode.

Definition MaxLatin1 : N := 0xFF%N.

(** The White_Space range table above Latin-1. *)
Definition White_Space_above_latin1 (r : N) : bool :=
  ((r =? 0x1680) || ((0x2000 <=? r) && (r <=? 0x200A))
   || ((0x2028 <=? r) && (r <=? 0x2029))
   || (r =? 0x202F) || (r =? 0x205F) || (r =? 0x3000))%N.

Definition IsSpace (r : N) : bool :=
  if (r <=? MaxLatin1)%N then
    ((r =? 0x09) || (r =? 0x0A) || (r =? 0x0B) || (r =? 0x0C)
     || (r =? 0x0D) || (r =? 0x20) || (r =? 0x85) || (r =? 0xA0))%N
  else White_Space_above_latin1 r.

End unicode.

(** ** Package strings *)
Module strings.

(** The runes of [s] in order, each with the bytes it was decoded from:
    what [for _, r := range s] walks through.  Every step consumes at
    least one byte, so [length s] steps always reach the end. *)
Fixpoint runes_upto (steps : nat) (s : string) : list (N * string) :=
  match steps with
  | O => []
  | S k =>
    match s with
    | EmptyString => []
    | _ =>
      let '(r, w) := utf8.DecodeRuneInString s in
      (r, take w s) :: runes_upto k (drop w s)
    end
  end.

Definition runes (s : string) : list (N * string) :=
  runes_upto (String.length s) s.

Definition bytes_of (rs : list (N * string)) : string :=
  String.concat EmptyString (map snd rs).

Fixpoint dropWhile {A} (f : A -> bool) (l : list A) : list A :=
  match l with
  | [] => []
  | x :: t => if f x then dropWhile f t else l
  end.

Definition is_space_rune (p : N * string) : bool := unicode.IsSpace (fst p).

(** [TrimLeftFunc s IsSpace] and [TrimRightFunc s IsSpace]: the leading,
    respectively trailing, run of white-space runes removed. *)
Definition trimLeft (rs : list (N * string)) := dropWhile is_space_rune rs.
Definition trimRight (rs : list (N * string)) :=
  rev (dropWhile is_space_rune (rev rs)).

(** [TrimSpace s]: [s] with all leading and trailing white space
    removed, as defined by Unicode. *)
Definition TrimSpace (s : string) : string :=
  bytes_of (trimRight (trimLeft (runes s))).

(** [Split s sep] for a one-byte separator (the package only splits on
    a newline): the substrings between the separators; always at least
    one element, [Split "" sep = [""]]. *)
Fixpoint Split (s : string) (sep : ascii) : list string :=
  match s with
  | EmptyString => [EmptyString]
  | String c t =>
    if Ascii.eqb c sep then EmptyString :: Split t sep
    else
      match Split t sep with
      | [] => [String c EmptyString]
      | h :: rest => String c h :: rest
      end
  end.

End strings.

(** ** Go's [error] values *)
Module errors.

(** The error values that occur: the [*errorString] made by [errors.New],
    the [*exec.ExitError] of a child that ran and did not succeed, and
    any other error of the standard library (a failed [LookPath], a
    failed [fork/exec]), known by its message. *)
Inductive error :=
| errorString (s : string)
| ExitError (status : Z)
| libError (msg : string).

Definition New (text : string) : error := errorString text.

Definition decimal (z : Z) : string :=
  DecimalString.NilZero.string_of_int (Z.to_int z).

(** The method [Error() string]. *)
Definition Error (e : error) : string :=
  match e with
  | errorString s => s
  | ExitError status => "exit status " ++ decimal status
  | libError msg => msg
  end.

End errors.
Import errors.

(** ** Package os/exec, over an abstract host *)
Module exec.

(** What happens when the host is asked to run a program: either no
    child process comes to exist, or a child runs to completion, having
    written [out] on its standard output and [err] on its standard
    error. *)
Inductive ProcResult :=
| NotStarted (cause : error)
| Exited (status : Z) (out err : string).

(** The machine the package runs on.  [LookPath] answers from the search
    path; [spawn] runs a program with an argument vector and may change
    the machine (the kernel's sets, files). *)
Class Host := {
  OS : Type;
  LookPath : OS -> string -> string * option error;
  spawn : OS -> string -> list string -> ProcResult * OS
}.

(** The fields of [exec.Cmd] that the package sets.  [Stderr] and
    [Stdout] point to [bytes.Buffer]s; the record holds their contents. *)
Record Cmd := {
  Path : string;
  Args : list string;
  Stderr : string;
  Stdout : string
}.

Section WithHost.
Context {H : Host}.

(** The machine together with the record of every process that was
    asked for, oldest first: program path and argument vector. *)
Record World := {
  os : OS;
  spawned : list (string * list string)
}.

(** [Cmd.Run]: start the command and wait for it.  What the child
    writes is appended to the two buffers, and a command that does not
    start writes nothing; the error is nil exactly when the child ran
    and exited with status zero.  The request is put on record either
    way. *)
Definition Run (c : Cmd) (w : World) : (Cmd * option error) * World :=
  let '(r, os') := spawn (os w) (Path c) (Args c) in
  let w' := {| os := os'; spawned := spawned w ++ [(Path c, Args c)] |} in
  match r with
  | NotStarted cause => ((c, Some cause), w')
  | Exited status out err =>
    let c' := {| Path := Path c; Args := Args c;
                 Stderr := (Stderr c ++ err)%string;
                 Stdout := (Stdout c ++ out)%string |} in
    ((c', if (status =? 0)%Z then None else Some (ExitError status)), w')
  end.

End WithHost.

End exec.

(** ** Package ipset *)
Module ipset.

Record IPSet := {
  Path : string;
  Options : list string
}.

(** A call either returns or panics. *)
Inductive res (A : Type) :=
| Ok (a : A)
| Panic (msg : string).
Arguments Ok {A} a.
Arguments Panic {A} msg.

Section WithHost.
Context {H : exec.Host}.

(** [New]: look the binary up on the search path; no handle on
    failure. *)
Definition New (o : exec.OS) : option IPSet * option error :=
  let '(binPath, err) := exec.LookPath o "ipset" in
  match err with
  | Some e => (None, Some e)
  | None => (Some {| Path := binPath; Options := [] |}, None)
  end.

(** The methods have the receiver [set *IPSet]: they run against the
    object the pointer leads to and against the machine. *)
Record State := {
  this : IPSet;
  world : exec.World
}.

Definition M (A : Type) : Type := State -> res A * State.

Definition ret {A} (a : A) : M A := fun st => (Ok a, st).

Definition bind {A B} (m : M A) (k : A -> M B) : M B :=
  fun st =>
    match m st with
    | (Ok a, st') => k a st'
    | (Panic msg, st') => (Panic msg, st')
    end.

Definition panic {A} (msg : string) : M A := fun st => (Panic msg, st).

Definition receiver : M IPSet := fun st => (Ok (this st), st).

Definition cmd_Run (c : exec.Cmd) : M (exec.Cmd * option error) :=
  fun st =>
    let '(r, w') := exec.Run c (world st) in
    (Ok r, {| this := this st; world := w' |}).

Notation "x <- m ;; k" := (bind m (fun x => k))
  (at level 61, m at next level, right associativity).
Notation "' pat <- m ;; k" :=
  (bind m (fun x => match x with pat => k end))
  (at level 61, pat pattern, m at next level, right associativity).

(** [run]: both buffers start empty; the error is made of the text of
    the standard-error buffer alone. *)
Definition run (args : list string) : M (string * option error) :=
  set <- receiver ;;
  let stderr := EmptyString in
  let stdout := EmptyString in
  let cmd := {| exec.Path := Path set;
                exec.Args := [Path set] ++ args;
                exec.Stderr := stderr;
                exec.Stdout := stdout |} in
  '(cmd', err) <- cmd_Run cmd ;;
  match err with
  | Some _ => ret (exec.Stdout cmd', Some (errors.New (exec.Stderr cmd')))
  | None => ret (exec.Stdout cmd', None)
  end.

Definition Create (name typ : string) (options : list string)
  : M (option error) :=
  '(_, err) <- run (["create"; name; typ] ++ options) ;; ret err.

Definition Add (name entry : string) (options : list string)
  : M (option error) :=
  '(_, err) <- run (["add"; name; entry] ++ options) ;; ret err.

Definition AddUnique (name entry : string) (options : list string)
  : M (option error) :=
  '(_, err) <- run (["add"; name; entry; "-exist"] ++ options) ;; ret err.

Definition Delete (name entry : string) (options : list string)
  : M (option error) :=
  '(_, err) <- run (["del"; name; entry] ++ options) ;; ret err.

Definition Test (name entry : string) (options : list string)
  : M (option error) :=
  '(_, err) <- run (["test"; name; entry] ++ options) ;; ret err.

Definition Destroy (name : string) : M (option error) :=
  '(_, err) <- run ["destroy"; name] ;; ret err.

Definition Save (name filename : string) : M (option error) :=
  '(_, err) <- run ["save"; name; "-file"; filename] ;; ret err.

Definition Restore (filename : string) : M (option error) :=
  '(_, err) <- run ["restore"; "-file"; filename] ;; ret err.

Definition Flush (name : string) : M (option error) :=
  '(_, err) <- run ["flush"; name] ;; ret err.

Definition Rename (from to : string) : M (option error) :=
  '(_, err) <- run ["rename"; from; to] ;; ret err.

Definition Swap (from to : string) : M (option error) :=
  '(_, err) <- run ["swap"; from; to] ;; ret err.

(** The first loop of [List]: [start] keeps its zero value unless a
    line trims to the marker, and the first such line ends the loop. *)
Fixpoint find_start (i : nat) (lines : list string) (start : nat) : nat :=
  match lines with
  | [] => start
  | line :: rest =>
    if (strings.TrimSpace line =? "Members:")%string then i
    else find_start (S i) rest start
  end.

(** The second loop of [List]: every line that is not blank once
    trimmed is appended, untrimmed. *)
Fixpoint collect (ls : list string) (members : list string)
  : list string :=
  match ls with
  | [] => members
  | l :: rest =>
    if (strings.TrimSpace l =? "")%string then collect rest members
    else collect rest (members ++ [l])
  end.

(** The slice expression [s[lo:]] panics when [lo] exceeds the
    length. *)
Definition slice_from (s : list string) (lo : nat) : M (list string) :=
  if (lo <=? length s)%nat then ret (skipn lo s)
  else panic "slice bounds out of range".

Definition List (name : string) : M (list string * option error) :=
  '(out, err) <- run ["list"; name] ;;
  let lines := strings.Split out LF in
  let start := find_start 0 lines 0 in
  if (length lines <=? start + 1)%nat then ret ([], err)
  else
    tail <- slice_from lines (start + 1) ;;
    let members := collect tail [] in
    ret (members, err).

End WithHost.

End ipset.

Import ipset.

(** ** The operations as one type

    A value of [Op] is one call of the package's API with its arguments;
    [perform] makes that call and keeps the error it returns. *)
Inductive Op :=
| OpCreate (name typ : string) (options : list string)
| OpAdd (name entry : string) (options : list string)
| OpAddUnique (name entry : string) (options : list string)
| OpDelete (name entry : string) (options : list string)
| OpTest (name entry : string) (options : list string)
| OpDestroy (name : string)
| OpSave (name filename : string)
| OpRestore (filename : string)
| OpFlush (name : string)
| OpRename (from to : string)
| OpSwap (from to : string)
| OpList (name : string).

Definition perform {H : exec.Host} (o : Op) : M (option error) :=
  match o with
  | OpCreate name typ options => Create name typ options
  | OpAdd name entry options => Add name entry options
  | OpAddUnique name entry options => AddUnique name entry options
  | OpDelete name entry options => Delete name entry options
  | OpTest name entry options => Test name entry options
  | OpDestroy name => Destroy name
  | OpSave name filename => Save name filename
  | OpRestore filename => Restore filename
  | OpFlush name => Flush name
  | OpRename from to => Rename from to
  | OpSwap from to => Swap from to
  | OpList name => bind (List name) (fun r => ret (snd r))
  end.

(** The table of argument-vector shapes of the specification (section 6),
    row by row; written from the table, not from the code. *)
Definition shape (o : Op) : list string :=
  match o with
  | OpCreate name typ opts => "create" :: name :: typ :: opts
  | OpAdd name entry opts => "add" :: name :: entry :: opts
  | OpAddUnique name entry opts => "add" :: name :: entry :: "-exist" :: opts
  | OpDelete name entry opts => "del" :: name :: entry :: opts
  | OpTest name entry opts => "test" :: name :: entry :: opts
  | OpDestroy name => ["destroy"; name]
  | OpSave name filename => ["save"; name; "-file"; filename]
  | OpRestore filename => ["restore"; "-file"; filename]
  | OpFlush name => ["flush"; name]
  | OpRename from to => ["rename"; from; to]
  | OpSwap from to => ["swap"; from; to]
  | OpList name => ["list"; name]
  end.

(** ** Reading a state *)

(** The process [run] asks for when handed [args]: the handle's binary,
    with its own path as argument zero and [args] after it. *)
Definition process_of (set : IPSet) (args : list string)
  : string * list string :=
  (Path set, Path set :: args).

(** What the host answers when the handle's binary is run with [args]. *)
Definition answer {H : exec.Host} (st : State) (args : list string)
  : exec.ProcResult :=
  fst (exec.spawn (exec.os (world st)) (Path (this st))
         (Path (this st) :: args)).

Definition with_options {H : exec.Host} (st : State) (opts : list string)
  : State :=
  {| this := {| Path := Path (this st); Options := opts |};
     world := world st |}.

(** The blank-line test of [List] as a predicate on lines. *)
Definition kept (l : string) : bool :=
  negb (strings.TrimSpace l =? "")%string.

Definition is_marker (l : string) : bool :=
  (strings.TrimSpace l =? "Members:")%string.

(** A string all of whose runes are white space (the empty string too). *)
Definition whitespace_only (s : string) : bool :=
  forallb strings.is_space_rune (strings.runes s).

Fixpoint has_newline (s : string) : bool :=
  match s with
  | EmptyString => false
  | String c t => Ascii.eqb c LF || has_newline t
  end.

(** The text made of the given lines, each ended by a newline. *)
Fixpoint unlines (ls : list string) : string :=
  match ls with
  | [] => EmptyString
  | l :: rest => (l ++ nl ++ unlines rest)%string
  end.

(** A line of the header: one line of text that is not the marker. *)
Definition plain_line (l : string) : Prop :=
  has_newline l = false /\ is_marker l = false.

(** The text of two members with a blank line between them:
    ["10.0.0.1\n\n10.0.0.2\n"]. *)
Definition two_members_text : string :=
  ("10.0.0.1" ++ nl ++ nl ++ "10.0.0.2" ++ nl)%string.

(** The header [ipset list] prints before the marker line. *)
Definition sample_header : list string :=
  ["Name: blocklist"; "Type: hash:ip"; "Revision: 4";
   "Header: family inet hashsize 1024 maxelem 65536";
   "Size in memory: 296"; "References: 0"; "Number of entries: 2"].

(** ** Small hosts to run the package on *)

Definition dquote : string := String "034"%char EmptyString.

(** The error of a lookup that finds nothing, with the message Go gives
    it. *)
Definition ErrNotFound (file : string) : error :=
  libError ("exec: " ++ dquote ++ file ++ dquote
            ++ ": executable file not found in $PATH").

(** A machine on which [ipset] is found at [path] (when given) and every
    process ends the same way; its state counts the processes run. *)
Definition fixed_host (path : option string) (r : exec.ProcResult)
  : exec.Host :=
  {| exec.OS := nat;
     exec.LookPath := fun _ file =>
       match path with
       | Some p => (p, None)
       | None => (EmptyString, Some (ErrNotFound file))
       end;
     exec.spawn := fun n _ _ => (r, S n) |}.

Definition fresh {H : exec.Host} (set : IPSet) (o : exec.OS) : State :=
  {| this := set; world := {| exec.os := o; exec.spawned := [] |} |}.

Definition sbin : IPSet := {| Path := "/usr/sbin/ipset"; Options := [] |}.

(** A machine whose [ipset] prints the listing of a set with two members
    and succeeds. *)
Definition listing_host : exec.Host :=
  fixed_host (Some "/usr/sbin/ipset")
    (exec.Exited 0
       (unlines sample_header ++ "Members:" ++ nl ++ two_members_text)
       EmptyString).

(** A machine whose [ipset] prints one member and then fails. *)
Definition denied_host : exec.Host :=
  fixed_host (Some "/usr/sbin/ipset")
    (exec.Exited 1 ("Members:" ++ nl ++ "10.0.0.1" ++ nl)
       "ipset v7.5: Kernel error received: Operation not permitted").

(** A machine whose [ipset] refuses to destroy a set that is in use. *)
Definition in_use_host : exec.Host :=
  fixed_host (Some "/usr/sbin/ipset")
    (exec.Exited 1 EmptyString
       "ipset v7.x: Set cannot be destroyed: in use").

(** A machine on which the binary cannot be executed. *)
Definition broken_host : exec.Host :=
  fixed_host (Some "/usr/sbin/ipset")
    (exec.NotStarted
       (libError "fork/exec /usr/sbin/ipset: permission denied")).

(** A machine whose [ipset] lists a set without members: the marker is
    the last line, with no newline after it. *)
Definition empty_set_host : exec.Host :=
  fixed_host (Some "/usr/sbin/ipset")
    (exec.Exited 0 (unlines sample_header ++ "Members:") EmptyString).

(** A machine whose [ipset] prints three lines and no marker. *)
Definition unmarked_host : exec.Host :=
  fixed_host (Some "/usr/sbin/ipset")
    (exec.Exited 0 ("10.0.0.1" ++ nl ++ "10.0.0.2" ++ nl ++ "10.0.0.3")
       EmptyString).

(** A machine without [ipset]. *)
Definition bare_host : exec.Host :=
  fixed_host None (exec.Exited 0 EmptyString EmptyString).

(** ** What the two halves of a call compute *)

(** What [run] returns for each answer of the host. *)
Definition run_result (r : exec.ProcResult) : string * option error :=
  match r with
  | exec.NotStarted _ => (EmptyString, Some (errorString EmptyString))
  | exec.Exited status out err =>
    (out, if (status =? 0)%Z then None else Some (errorString err))
  end.

(** The state [run] leaves: the handle as it was, the machine as the
    process left it, one more process on record. *)
Definition after_run {H : exec.Host} (st : State) (args : list string)
  : State :=
  {| this := this st;
     world :=
       {| exec.os := snd (exec.spawn (exec.os (world st)) (Path (this st))
                            (Path (this st) :: args));
          exec.spawned :=
            exec.spawned (world st) ++ [process_of (this st) args] |} |}.

(** The members [List] reads off a captured standard output. *)
Definition members_of (out : string) : list string :=
  let lines := strings.Split out LF in
  filter kept (skipn (find_start 0 lines 0 + 1) lines).

(** ** Calls one after another *)

(** A caller making the calls [ops] in order on one handle, keeping the
    error of each. *)
Fixpoint perform_all {H : exec.Host} (ops : list Op)
  : M (list (option error)) :=
  match ops with
  | [] => ret []
  | o :: rest =>
    bind (perform o) (fun e =>
    bind (perform_all rest) (fun es => ret (e :: es)))
  end.

(** The number of newline bytes of a text. *)
Fixpoint count_newlines (s : string) : nat :=
  match s with
  | EmptyString => 0
  | String c t => (if Ascii.eqb c LF then 1 else 0) + count_newlines t
  end.

(** A machine whose [ipset] fails without a word: status 1, nothing on
    standard error. *)
Definition silent_host : exec.Host :=
  fixed_host (Some "/usr/sbin/ipset")
    (exec.Exited 1 EmptyString EmptyString).

(** The listing of [listing_host] with the last newline missing. *)
Definition chopped_host : exec.Host :=
  fixed_host (Some "/usr/sbin/ipset")
    (exec.Exited 0
       (unlines sample_header ++ "Members:" ++ nl
        ++ "10.0.0.1" ++ nl ++ nl ++ "10.0.0.2")
       EmptyString).

(** A machine whose [ipset] prints the marker twice before one entry. *)
Definition two_marker_host : exec.Host :=
  fixed_host (Some "/usr/sbin/ipset")
    (exec.Exited 0
       ("Members:" ++ nl ++ "Members:" ++ nl ++ "10.0.0.1" ++ nl)
       EmptyString).

(** ** Package path/filepath (Unix) *)
Module filepath.

Definition Separator : ascii := "/"%char.
Definition ListSeparator : ascii := ":"%char.

(** [IsAbs path]: whether the path begins with a slash. *)
Definition IsAbs (path : string) : bool :=
  match path with
  | EmptyString => false
  | String c _ => Ascii.eqb c Separator
  end.

(** [SplitList path]: the entries of a search path; none for the empty
    string. *)
Definition SplitList (path : string) : list string :=
  if (path =? "")%string then [] else strings.Split path ListSeparator.

(** The elements [Clean] keeps, last kept first.  An empty element and
    [.] are dropped; [..] removes the element before it when there is one
    to remove, is dropped at the root, and is kept otherwise. *)
Fixpoint clean_elements (rooted : bool) (elems out : list string)
  : list string :=
  match elems with
  | [] => rev out
  | e :: rest =>
    if (e =? "")%string then clean_elements rooted rest out
    else if (e =? ".")%string then clean_elements rooted rest out
    else if (e =? "..")%string then
      match out with
      | top :: below =>
        if (top =? "..")%string
        then clean_elements rooted rest (".." :: out)
        else clean_elements rooted rest below
      | [] =>
        if rooted then clean_elements rooted rest out
        else clean_elements rooted rest [".."]
      end
    else clean_elements rooted rest (e :: out)
  end.

(** [Clean path]: the shortest path name equivalent to [path] by purely
    lexical processing; [.] for the empty result. *)
Definition Clean (path : string) : string :=
  if (path =? "")%string then "."
  else
    let rooted := IsAbs path in
    let body :=
      String.concat "/"
        (clean_elements rooted (strings.Split path Separator) [])
    in
    if rooted then ("/" ++ body)%string
    else if (body =? "")%string then "." else body.

(** [Join dir file]: the two elements joined by a slash and cleaned;
    an empty element is ignored. *)
Definition Join (dir file : string) : string :=
  if negb (dir =? "")%string then Clean (dir ++ "/" ++ file)
  else if negb (file =? "")%string then Clean file
  else EmptyString.

End filepath.

(** ** [exec.LookPath] on Unix *)
Module lp_unix.

(** What the lookup reads of the machine: the variable [PATH], for each
    path whether it names an executable file ([findExecutable] returns
    nil) or why not, and whether a match relative to the current
    directory is refused ([ErrDot], the default since Go 1.19) or
    returned as it is. *)
Record Env := {
  PATH : string;
  findExecutable : string -> option error;
  errdot : bool
}.

Definition ErrDot (file : string) : error :=
  libError ("exec: " ++ dquote ++ file ++ dquote
            ++ ": cannot run executable found relative to current directory").

(** An empty entry of the search path means the current directory. *)
Definition entry (dir : string) : string :=
  if (dir =? "")%string then "." else dir.

(** The loop over the entries of the search path. *)
Fixpoint search (env : Env) (file : string) (dirs : list string)
  : string * option error :=
  match dirs with
  | [] => (EmptyString, Some (ErrNotFound file))
  | dir :: rest =>
    let path := filepath.Join (entry dir) file in
    match findExecutable env path with
    | None =>
      if negb (filepath.IsAbs path) && errdot env
      then (path, Some (ErrDot file))
      else (path, None)
    | Some _ => search env file rest
    end
  end.

Fixpoint has_slash (s : string) : bool :=
  match s with
  | EmptyString => false
  | String c t => Ascii.eqb c filepath.Separator || has_slash t
  end.

(** [LookPath file]: a name with a slash is tried as it is, any other is
    searched for along [PATH]. *)
Definition LookPath (env : Env) (file : string) : string * option error :=
  if has_slash file then
    match findExecutable env file with
    | None => (file, None)
    | Some err =>
      (EmptyString,
       Some (libError ("exec: " ++ dquote ++ file ++ dquote ++ ": "
                       ++ Error err)))
    end
  else search env file (filepath.SplitList (PATH env)).

(** The entry [dir] of the search path holds an executable [file]. *)
Definition hits (env : Env) (file dir : string) : Prop :=
  findExecutable env (filepath.Join (entry dir) file) = None.

(** No entry of the search path holds an executable [file]. *)
Definition nowhere (env : Env) (file : string) : Prop :=
  Forall (fun dir => ~ hits env file dir) (filepath.SplitList (PATH env)).

End lp_unix.

(** A machine whose lookup is the one of [lp_unix] in the environment
    [env], and on which every process ends the same way. *)
Definition unix_host (env : lp_unix.Env) (r : exec.ProcResult) : exec.Host :=
  {| exec.OS := nat;
     exec.LookPath := fun _ file => lp_unix.LookPath env file;
     exec.spawn := fun n _ _ => (r, S n) |}.

Definition no_such_file : error := libError "no such file or directory".

(** A machine with [ipset] in [/usr/sbin] and an absolute search path. *)
Definition sbin_env : lp_unix.Env :=
  {| lp_unix.PATH := "/usr/local/bin:/usr/sbin:/usr/bin";
     lp_unix.findExecutable := fun p =>
       if (p =? "/usr/sbin/ipset")%string then None else Some no_such_file;
     lp_unix.errdot := true |}.

(** A machine whose search path starts with the current directory, in
    which there is an executable [ipset]; [dot] tells whether matches
    relative to the current directory are refused. *)
Definition dot_env (dot : bool) : lp_unix.Env :=
  {| lp_unix.PATH := ".:/usr/sbin";
     lp_unix.findExecutable := fun p =>
       if ((p =? "ipset") || (p =? "/usr/sbin/ipset"))%string
       then None else Some no_such_file;
     lp_unix.errdot := dot |}.

(** An element of a cleaned relative path: not empty, no slash in front. *)
Definition element (e : string) : Prop :=
  filepath.IsAbs e = false /\ e <> EmptyString.

Definition quiet : exec.ProcResult :=
  exec.Exited 0 EmptyString EmptyString.

(** Construction as the specification has it: a handle with an absolute
    path and no default options, or no handle and the error of a binary
    that is not found. *)
Definition construction_as_specified {H : exec.Host} (o : exec.OS) : Prop :=
  (exists h,
     New o = (Some h, None) /\
     filepath.IsAbs (Path h) = true /\ Options h = []) \/
  New o = (None, Some (ErrNotFound "ipset")).

(** * Properties *)

(** ** The execution primitive *)
Section Run.
Context {H : exec.Host}.

Lemma run_eq (args : list string) (st : State) :
  run args st = (Ok (run_result (answer st args)), after_run st args).
Proof.
  unfold run, bind, receiver, cmd_Run, exec.Run, answer, after_run,
    process_of, ret, errors.New.
  cbn [exec.Path exec.Args exec.Stderr exec.Stdout app].
  destruct (exec.spawn (exec.os (world st)) (Path (this st))
              (Path (this st) :: args)) as [r os'].
  destruct r as [cause | status out err]; cbn; [reflexivity |].
  destruct (status =? 0)%Z; reflexivity.
Qed.

Lemma run_returns (args : list string) (st : State) :
  exists out err st', run args st = (Ok (out, err), st').
Proof.
  rewrite run_eq. destruct (run_result (answer st args)) as [out err].
  now exists out, err, (after_run st args).
Qed.

End Run.

(** ** Lines and the two loops of [List] *)
Section Lines.

Lemma Split_nonempty (s : string) (sep : ascii) : strings.Split s sep <> [].
Proof.
  destruct s as [| c t]; cbn; [discriminate |].
  destruct (Ascii.eqb c sep); [discriminate |].
  destruct (strings.Split t sep); discriminate.
Qed.

Lemma Split_line (l t : string) :
  has_newline l = false ->
  strings.Split (l ++ String LF t) LF = l :: strings.Split t LF.
Proof.
  induction l as [| c l IH]; cbn [has_newline append strings.Split]; intro Hl.
  - now rewrite Ascii.eqb_refl.
  - apply orb_false_iff in Hl as [Hc Hl].
    rewrite Hc, (IH Hl). reflexivity.
Qed.

Lemma Split_last (l : string) :
  has_newline l = false -> strings.Split l LF = [l].
Proof.
  induction l as [| c l IH]; cbn [has_newline strings.Split]; intro Hl.
  - reflexivity.
  - apply orb_false_iff in Hl as [Hc Hl].
    rewrite Hc, (IH Hl). reflexivity.
Qed.

Lemma append_assoc' (a b c : string) :
  ((a ++ b) ++ c = a ++ (b ++ c))%string.
Proof. induction a as [| x a IH]; cbn; [reflexivity | now rewrite IH]. Qed.

Lemma Split_unlines (ls : list string) (t : string) :
  Forall (fun l => has_newline l = false) ls ->
  strings.Split (unlines ls ++ t) LF = ls ++ strings.Split t LF.
Proof.
  induction 1 as [| l ls Hl _ IH]; cbn [unlines app]; [reflexivity |].
  unfold nl. rewrite append_assoc'. cbn [append].
  now rewrite (Split_line _ _ Hl), IH.
Qed.

Lemma collect_filter (ls acc : list string) :
  collect ls acc = acc ++ filter kept ls.
Proof.
  revert acc. induction ls as [| l ls IH]; intro acc; cbn [collect filter].
  - now rewrite app_nil_r.
  - unfold kept at 1. destruct (strings.TrimSpace l =? "")%string; cbn [negb].
    + apply IH.
    + rewrite IH, <- app_assoc. reflexivity.
Qed.

Lemma find_start_absent (lines : list string) (i start : nat) :
  Forall (fun l => is_marker l = false) lines ->
  find_start i lines start = start.
Proof.
  intro Hn. revert i.
  induction Hn as [| l ls Hl _ IH]; intro i; cbn [find_start]; [reflexivity |].
  unfold is_marker in Hl. rewrite Hl. apply IH.
Qed.

Lemma find_start_first (header rest : list string) (m : string)
  (i start : nat) :
  Forall (fun l => is_marker l = false) header ->
  is_marker m = true ->
  find_start i (header ++ m :: rest) start = i + length header.
Proof.
  intros Hn Hm. revert i.
  induction Hn as [| l ls Hl _ IH]; intro i; cbn [find_start app length].
  - unfold is_marker in Hm. rewrite Hm. lia.
  - unfold is_marker in Hl. rewrite Hl, IH. lia.
Qed.

End Lines.

(** ** [List] as a function of what [run] returned *)
Section Listing.
Context {H : exec.Host}.

Lemma List_eq (name : string) (st : State) :
  List name st =
  (Ok (members_of (fst (run_result (answer st ["list"; name]))),
       snd (run_result (answer st ["list"; name]))),
   after_run st ["list"; name]).
Proof.
  unfold List, bind at 1. rewrite run_eq.
  destruct (run_result (answer st ["list"; name])) as [out err].
  cbn [fst snd]. unfold members_of.
  set (lines := strings.Split out LF).
  set (start := find_start 0 lines 0).
  destruct (length lines <=? start + 1)%nat eqn:Hlen.
  - apply Nat.leb_le in Hlen.
    rewrite skipn_all2 by lia. reflexivity.
  - apply Nat.leb_gt in Hlen.
    unfold slice_from, bind.
    replace (start + 1 <=? length lines)%nat with true
      by (symmetry; apply Nat.leb_le; lia).
    unfold ret. now rewrite collect_filter.
Qed.

End Listing.

(** ** Every operation is one [run] *)
Section Operations.
Context {H : exec.Host}.

Lemma perform_eq (o : Op) (st : State) :
  perform o st =
  (Ok (snd (run_result (answer st (shape o)))), after_run st (shape o)).
Proof.
  destruct o; cbn [perform shape];
    try (unfold Create, Add, AddUnique, Delete, Test, Destroy, Save, Restore,
           Flush, Rename, Swap, bind; cbn [app]; rewrite run_eq;
         destruct (run_result _) as [out err]; reflexivity).
  unfold bind. rewrite List_eq. reflexivity.
Qed.

Lemma perform_is_one_run (o : Op) (st : State) :
  perform o st = bind (run (shape o)) (fun r => ret (snd r)) st /\
  exec.spawned (world (snd (perform o st))) =
    exec.spawned (world st) ++ [process_of (this st) (shape o)].
Proof.
  rewrite perform_eq. unfold bind. rewrite run_eq. split; reflexivity.
Qed.

(** C1.  Whatever the operation, its arguments and its extra options, the
    call is one [run] on exactly the argument vector of the section-6
    table for that operation, extra options last and in the order given;
    the process asked for is the handle's binary with that vector after
    argument zero. *)
Theorem argument_vector_matches_table (o : Op) (st : State) :
  perform o st = bind (run (shape o)) (fun r => ret (snd r)) st /\
  exec.spawned (world (snd (perform o st))) =
    exec.spawned (world st) ++ [(Path (this st), Path (this st) :: shape o)].
Proof. exact (perform_is_one_run o st). Qed.

(** C3.  For all names, entries and extra options, the empty string
    included, the vector [AddUnique] hands to [run] is the subcommand and
    the two positional arguments, then [-exist], then the extra options
    as given. *)
Theorem AddUnique_exist_follows_positionals
  (name entry : string) (options : list string) (st : State) :
  exists args,
    AddUnique name entry options st =
      bind (run args) (fun r => ret (snd r)) st /\
    exec.spawned (world (snd (AddUnique name entry options st))) =
      exec.spawned (world st) ++ [(Path (this st), Path (this st) :: args)] /\
    args = ["add"; name; entry] ++ ["-exist"] ++ options /\
    firstn 3 args = ["add"; name; entry] /\
    nth_error args 3 = Some "-exist" /\
    skipn 4 args = options.
Proof.
  exists (shape (OpAddUnique name entry options)).
  destruct (perform_is_one_run (OpAddUnique name entry options) st)
    as [E L].
  repeat split; assumption || reflexivity.
Qed.

End Operations.

(** ** Errors *)
Section Errors.
Context {H : exec.Host}.

Lemma perform_result (o : Op) (st : State) :
  fst (perform o st) = Ok (snd (run_result (answer st (shape o)))).
Proof. now rewrite perform_eq. Qed.

(** C2.  Every operation returns; its error is nil exactly when the
    child ran and exited with status zero, whatever it wrote on standard
    output.  When the child exited non-zero the error's message is the
    whole text the child wrote on standard error, byte for byte; when no
    child was started the message is the (empty) text captured. *)
Theorem error_iff_failure (o : Op) (st : State) :
  exists err,
    fst (perform o st) = Ok err /\
    (err = None <->
     exists out stderr, answer st (shape o) = exec.Exited 0 out stderr) /\
    match answer st (shape o) with
    | exec.Exited status out stderr =>
      if (status =? 0)%Z then err = None
      else exists e, err = Some e /\ Error e = stderr
    | exec.NotStarted _ => exists e, err = Some e /\ Error e = EmptyString
    end.
Proof.
  exists (snd (run_result (answer st (shape o)))).
  split; [apply perform_result |].
  destruct (answer st (shape o)) as [cause | status out stderr];
    cbn [run_result snd].
  - split; [split; [discriminate | intros (? & ? & ?); discriminate] |].
    now exists (errorString EmptyString).
  - destruct (status =? 0)%Z eqn:E.
    + apply Z.eqb_eq in E. subst status.
      split; [| reflexivity]. split; [now exists out, stderr | reflexivity].
    + apply Z.eqb_neq in E.
      split; [| now exists (errorString stderr)].
      split; [discriminate |].
      intros (out' & stderr' & E'). congruence.
Qed.

(** C10.  When no child process could be started, every operation
    returns the error [errors.New("")]: its message is empty whatever
    the cause was.  When a child exited non-zero the error is made of its
    standard-error text alone, whatever the status was. *)
Theorem start_failure_error_is_empty
  (o : Op) (st : State) (cause : error) :
  answer st (shape o) = exec.NotStarted cause ->
  fst (perform o st) = Ok (Some (errors.New EmptyString)) /\
  Error (errors.New EmptyString) = EmptyString /\
  forall (st2 : State) (status : Z) (out stderr : string),
    answer st2 (shape o) = exec.Exited status out stderr ->
    status <> 0%Z ->
    fst (perform o st2) = Ok (Some (errors.New stderr)).
Proof.
  intro E. rewrite perform_result, E. repeat split.
  intros st2 status out stderr E2 Hs.
  rewrite perform_result, E2. cbn [run_result snd].
  apply Z.eqb_neq in Hs. now rewrite Hs.
Qed.

(** C9.  Every operation leaves the handle as it was, both fields; and
    the default options are not part of the call: with any other list in
    their place the call returns the same, asks for the same process and
    leaves the same machine. *)
Theorem handle_is_unchanged (o : Op) (st : State) :
  this (snd (perform o st)) = this st /\
  (forall opts,
     perform o (with_options st opts) =
     (fst (perform o st), with_options (snd (perform o st)) opts)) /\
  exec.spawned (world (snd (perform o st))) =
    exec.spawned (world st) ++ [(Path (this st), Path (this st) :: shape o)].
Proof.
  split; [now rewrite perform_eq |].
  split; [| now rewrite perform_eq].
  intro opts. rewrite !perform_eq. reflexivity.
Qed.

(** [New] hands on what the lookup returned: the path in a handle
    without default options, or the error and no handle. *)
Lemma New_handle_or_lookup_error (o : exec.OS) :
  match exec.LookPath o "ipset" with
  | (binPath, None) =>
    New o = (Some {| Path := binPath; Options := [] |}, None)
  | (_, Some e) => New o = (None, Some e)
  end.
Proof.
  unfold New. destruct (exec.LookPath o "ipset") as [binPath [e |]];
    reflexivity.
Qed.

End Errors.

(** ** White space *)
Section WhiteSpace.

Lemma decode_width_pos (c : ascii) (t : string) :
  exists w, snd (utf8.DecodeRuneInString (String c t)) = S w.
Proof.
  unfold utf8.DecodeRuneInString.
  repeat match goal with
         | |- context [match ?x with _ => _ end] => destruct x
         end; cbn [snd]; eauto.
Qed.

Lemma runes_chunks_nonempty (k : nat) (s : string) :
  Forall (fun p => snd p <> EmptyString) (strings.runes_upto k s).
Proof.
  revert s. induction k as [| k IH]; intro s; cbn [strings.runes_upto].
  - constructor.
  - destruct s as [| c t]; [constructor |].
    destruct (decode_width_pos c t) as [w Hw].
    destruct (utf8.DecodeRuneInString (String c t)) as [r w'].
    cbn [snd] in Hw. subst w'. constructor; [| apply IH].
    cbn. discriminate.
Qed.

Lemma bytes_of_empty (rs : list (N * string)) :
  Forall (fun p => snd p <> EmptyString) rs ->
  strings.bytes_of rs = EmptyString -> rs = [].
Proof.
  unfold strings.bytes_of.
  destruct 1 as [| p rest Hp _]; [reflexivity |].
  cbn [map String.concat]. destruct (snd p) as [| c t]; [contradiction |].
  destruct (map snd rest); cbn; discriminate.
Qed.

Lemma dropWhile_nil {A} (f : A -> bool) (l : list A) :
  strings.dropWhile f l = [] <-> forallb f l = true.
Proof.
  induction l as [| a l IH]; cbn; [tauto |].
  destruct (f a); cbn; [exact IH | split; discriminate].
Qed.

Lemma dropWhile_head {A} (f : A -> bool) (l : list A) (a : A) (t : list A) :
  strings.dropWhile f l = a :: t -> f a = false.
Proof.
  induction l as [| b l IH]; cbn; [discriminate |].
  destruct (f b) eqn:E; [exact IH |].
  intro E'. injection E' as -> _. exact E.
Qed.

Lemma dropWhile_Forall {A} (P : A -> Prop) (f : A -> bool) (l : list A) :
  Forall P l -> Forall P (strings.dropWhile f l).
Proof.
  induction 1 as [| a l Ha Hl IH]; cbn; [constructor |].
  destruct (f a); [exact IH | now constructor].
Qed.

Lemma forallb_rev {A} (f : A -> bool) (l : list A) :
  forallb f (rev l) = forallb f l.
Proof.
  induction l as [| a l IH]; cbn; [reflexivity |].
  rewrite forallb_app, IH. cbn. rewrite andb_true_r. apply andb_comm.
Qed.

Lemma take_drop (n : nat) (s : string) : (take n s ++ drop n s)%string = s.
Proof.
  revert s. induction n as [| n IH]; intros [| c t]; cbn; try reflexivity.
  now rewrite IH.
Qed.

Lemma drop_length (n : nat) (s : string) :
  String.length (drop n s) = String.length s - n.
Proof.
  revert s. induction n as [| n IH]; intros [| c t]; cbn; try reflexivity.
  apply IH.
Qed.

Lemma bytes_of_cons (p : N * string) (rs : list (N * string)) :
  strings.bytes_of (p :: rs) = (snd p ++ strings.bytes_of rs)%string.
Proof.
  unfold strings.bytes_of. cbn [map String.concat].
  destruct (map snd rs); cbn [String.concat]; [| reflexivity].
  induction (snd p) as [| c t IH]; cbn; [reflexivity | now rewrite <- IH].
Qed.

(** Decoding loses nothing: the bytes of the runes of [s], put back
    together, are [s]. *)
Lemma runes_lossless (s : string) : strings.bytes_of (strings.runes s) = s.
Proof.
  unfold strings.runes.
  assert (G : forall k s, String.length s <= k ->
                strings.bytes_of (strings.runes_upto k s) = s).
  { clear s. induction k as [| k IH]; intros [| c t] Hlen;
      cbn [strings.runes_upto]; try reflexivity.
    - cbn in Hlen. lia.
    - destruct (decode_width_pos c t) as [w Hw].
      destruct (utf8.DecodeRuneInString (String c t)) as [r w'].
      cbn [snd] in Hw. subst w'.
      rewrite bytes_of_cons. cbn [snd]. rewrite IH, take_drop; [reflexivity |].
      rewrite drop_length. cbn in Hlen |- *. lia. }
  now apply G.
Qed.

(** A line trims to nothing exactly when it is made of white space
    only. *)
Lemma TrimSpace_empty_iff (s : string) :
  strings.TrimSpace s = EmptyString <-> whitespace_only s = true.
Proof.
  unfold strings.TrimSpace, whitespace_only, strings.trimRight,
    strings.trimLeft, strings.runes.
  set (rs := strings.runes_upto (String.length s) s).
  assert (Hne : Forall (fun p => snd p <> EmptyString) rs)
    by apply runes_chunks_nonempty.
  split.
  - intro E. apply bytes_of_empty in E.
    + apply (f_equal (@rev _)) in E. rewrite rev_involutive in E. cbn in E.
      apply dropWhile_nil in E. rewrite forallb_rev in E.
      destruct (strings.dropWhile strings.is_space_rune rs) as [| a t] eqn:D.
      * now apply dropWhile_nil.
      * apply dropWhile_head in D. cbn in E. now rewrite D in E.
    + apply Forall_rev, dropWhile_Forall, Forall_rev, dropWhile_Forall, Hne.
  - intro E. apply dropWhile_nil in E. now rewrite E.
Qed.

Lemma kept_spec (l : string) :
  kept l = true <->
  l <> EmptyString /\ strings.TrimSpace l <> EmptyString /\
  whitespace_only l = false.
Proof.
  unfold kept. rewrite negb_true_iff, String.eqb_neq. split.
  - intro Hn. repeat split; [now intros -> | exact Hn |].
    destruct (whitespace_only l) eqn:E; [| reflexivity].
    now apply TrimSpace_empty_iff in E.
  - now intros (_ & Hn & _).
Qed.

End WhiteSpace.

(** ** The members of a listing *)
Section Members.

Lemma In_skipn {A} (n : nat) (l : list A) (x : A) :
  In x (skipn n l) -> In x l.
Proof.
  revert l. induction n as [| n IH]; intros [| a l]; cbn; auto.
Qed.

Lemma skipn_past {A} (h : list A) (m : A) (rest : list A) :
  skipn (0 + length h + 1) (h ++ m :: rest) = rest.
Proof.
  cbn [plus]. rewrite Nat.add_1_r.
  induction h as [| a h IH]; [reflexivity | exact IH].
Qed.

Lemma plain_lines (header : list string) :
  Forall plain_line header ->
  Forall (fun l => has_newline l = false) header /\
  Forall (fun l => is_marker l = false) header.
Proof.
  induction 1 as [| l ls [Hn Hm] _ [IH1 IH2]]; split; constructor; assumption.
Qed.

(** After a header without marker and the marker line, the members are
    the lines of the rest that do not trim to nothing. *)
Lemma members_of_after_marker (header : list string) (marker rest : string) :
  Forall plain_line header ->
  has_newline marker = false -> is_marker marker = true ->
  members_of (unlines header ++ marker ++ nl ++ rest) =
  filter kept (strings.Split rest LF).
Proof.
  intros Hh Hn Hm. apply plain_lines in Hh as [Hh1 Hh2].
  unfold members_of. cbv zeta.
  rewrite (Split_unlines _ _ Hh1). unfold nl. cbn [append].
  rewrite (Split_line _ _ Hn), (find_start_first _ _ _ _ _ Hh2 Hm).
  now rewrite skipn_past.
Qed.

Lemma members_of_marker_last (header : list string) (marker : string) :
  Forall plain_line header ->
  has_newline marker = false -> is_marker marker = true ->
  members_of (unlines header ++ marker) = [].
Proof.
  intros Hh Hn Hm. apply plain_lines in Hh as [Hh1 Hh2].
  unfold members_of. cbv zeta.
  rewrite (Split_unlines _ _ Hh1), (Split_last _ Hn).
  rewrite (find_start_first _ _ _ _ _ Hh2 Hm).
  now rewrite skipn_past.
Qed.

Lemma members_of_no_marker (out : string) :
  Forall (fun l => is_marker l = false) (strings.Split out LF) ->
  members_of out = filter kept (tl (strings.Split out LF)).
Proof.
  intro Hn. unfold members_of. cbv zeta.
  rewrite (find_start_absent _ _ _ Hn). reflexivity.
Qed.

End Members.

(** ** The list operation *)
Section ListOperation.
Context {H : exec.Host}.

Lemma List_from_run (name : string) (st : State)
  (out : string) (err : option error) (st' : State) :
  run ["list"; name] st = (Ok (out, err), st') ->
  List name st = (Ok (members_of out, err), st').
Proof.
  rewrite run_eq, List_eq. intro E.
  destruct (run_result (answer st ["list"; name])) as [out0 err0].
  now injection E as -> -> ->.
Qed.

(** C4.  When the captured standard output is a header, the marker line
    (a line that trims to [Members:]) and then the text
    ["10.0.0.1\n\n10.0.0.2\n"], the list operation returns the members
    ["10.0.0.1"] and ["10.0.0.2"], in that order, the blank line left
    out. *)
Theorem List_two_members (name : string) (st : State)
  (header : list string) (marker out : string)
  (err : option error) (st' : State) :
  run ["list"; name] st = (Ok (out, err), st') ->
  Forall plain_line header ->
  has_newline marker = false ->
  strings.TrimSpace marker = "Members:" ->
  out = (unlines header ++ marker ++ nl ++ two_members_text)%string ->
  List name st = (Ok (["10.0.0.1"; "10.0.0.2"], err), st').
Proof.
  intros Hrun Hh Hn Hm ->. rewrite (List_from_run _ _ _ _ _ Hrun).
  rewrite members_of_after_marker; try assumption.
  - reflexivity.
  - unfold is_marker. now rewrite Hm.
Qed.

(** C5.  The list operation always returns.  When no line of the
    captured standard output trims to [Members:], the scan leaves the
    start index at zero and the members are collected from the lines
    after line zero: the first line is not looked at. *)
Theorem List_without_marker (name : string) (st : State) :
  exists out err st',
    run ["list"; name] st = (Ok (out, err), st') /\
    (exists ms, List name st = (Ok (ms, err), st')) /\
    (Forall (fun l => is_marker l = false) (strings.Split out LF) ->
     find_start 0 (strings.Split out LF) 0 = 0 /\
     List name st =
       (Ok (collect (skipn 1 (strings.Split out LF)) [], err), st') /\
     collect (skipn 1 (strings.Split out LF)) [] =
       filter kept (tl (strings.Split out LF))).
Proof.
  destruct (run_returns ["list"; name] st) as (out & err & st' & Hrun).
  exists out, err, st'. split; [exact Hrun |].
  pose proof (List_from_run _ _ _ _ _ Hrun) as HL.
  split; [now exists (members_of out) |].
  intro Hn. split; [now apply find_start_absent |].
  rewrite collect_filter. cbn [app].
  split; [| reflexivity].
  now rewrite HL, members_of_no_marker.
Qed.

(** C8.  Whatever the standard output, every member the list operation
    returns is one of its lines, exactly as it stands there, and none is
    empty or made of white space only. *)
Theorem members_are_nonblank_lines (name : string) (st : State) :
  exists out err ms st',
    run ["list"; name] st = (Ok (out, err), st') /\
    List name st = (Ok (ms, err), st') /\
    Forall (fun m => In m (strings.Split out LF) /\
                     m <> EmptyString /\
                     strings.TrimSpace m <> EmptyString /\
                     whitespace_only m = false) ms.
Proof.
  destruct (run_returns ["list"; name] st) as (out & err & st' & Hrun).
  exists out, err, (members_of out), st'.
  split; [exact Hrun |]. split; [now apply List_from_run |].
  apply Forall_forall. intros m Hin. unfold members_of in Hin.
  apply filter_In in Hin as [Hin Hk]. apply In_skipn in Hin.
  apply kept_spec in Hk. tauto.
Qed.

End ListOperation.

(** ** Members and error together *)

Lemma append_empty_r (s : string) : (s ++ EmptyString)%string = s.
Proof. induction s as [| c s IH]; cbn; [reflexivity | now rewrite IH]. Qed.

(** C6.  The list operation returns the members read off the captured
    standard output together with the error of the execution, whatever
    each is: the members depend on the output alone; listings exist that
    return members and an error at once; when no line follows the start
    index the members are absent and the error is the one of the
    execution; and after a successful run whose output ends with the
    marker line there are no members and no error. *)
Theorem List_members_and_error :
  (forall (H : exec.Host) (name : string) (st : State),
     exists out err st',
       run ["list"; name] st = (Ok (out, err), st') /\
       List name st = (Ok (members_of out, err), st')) /\
  (exists (H : exec.Host) (name : string) (st : State) ms e st',
     List name st = (Ok (ms, Some e), st') /\ ms <> []) /\
  (forall (H : exec.Host) (name : string) (st : State) out err st',
     run ["list"; name] st = (Ok (out, err), st') ->
     length (strings.Split out LF)
       <= find_start 0 (strings.Split out LF) 0 + 1 ->
     List name st = (Ok ([], err), st')) /\
  (forall (H : exec.Host) (name : string) (st : State)
          (header : list string) (marker ending stderr : string),
     Forall plain_line header ->
     has_newline marker = false ->
     strings.TrimSpace marker = "Members:" ->
     ending = EmptyString \/ ending = nl ->
     answer st ["list"; name] =
       exec.Exited 0 (unlines header ++ marker ++ ending) stderr ->
     List name st = (Ok ([], None), after_run st ["list"; name])).
Proof.
  split; [| split; [| split]].
  - intros H name st.
    destruct (run_returns ["list"; name] st) as (out & err & st' & Hrun).
    exists out, err, st'. split; [exact Hrun | now apply List_from_run].
  - exists denied_host, "blocklist", (@fresh denied_host sbin 0).
    do 3 eexists. split; [reflexivity | discriminate].
  - intros H name st out err st' Hrun Hlen.
    rewrite (List_from_run _ _ _ _ _ Hrun). unfold members_of. cbv zeta.
    now rewrite skipn_all2 by lia.
  - intros H name st header marker ending stderr Hh Hn Hm He Ha.
    assert (Hm' : is_marker marker = true)
      by (unfold is_marker; now rewrite Hm).
    rewrite List_eq, Ha. cbn [run_result fst snd Z.eqb].
    destruct He as [-> | ->].
    + rewrite append_empty_r. now rewrite members_of_marker_last.
    + replace (marker ++ nl)%string with (marker ++ nl ++ EmptyString)%string
        by reflexivity.
      now rewrite members_of_after_marker.
Qed.

(** ** The properties at work on the small hosts *)

Lemma List_two_members_witness :
  @List listing_host "blocklist" (@fresh listing_host sbin 0) =
  (Ok (["10.0.0.1"; "10.0.0.2"], None),
   @after_run listing_host (@fresh listing_host sbin 0) ["list"; "blocklist"]).
Proof.
  apply (@List_two_members listing_host "blocklist"
           (@fresh listing_host sbin 0) sample_header "Members:"
           (unlines sample_header ++ "Members:" ++ nl ++ two_members_text)).
  - reflexivity.
  - repeat constructor.
  - reflexivity.
  - reflexivity.
  - reflexivity.
Defined.

Lemma start_failure_error_is_empty_witness :
  fst (@perform broken_host (OpDestroy "blocklist")
         (@fresh broken_host sbin 0)) =
    Ok (Some (errors.New EmptyString)) /\
  Error (errors.New EmptyString) = EmptyString /\
  forall (st2 : @State broken_host) (status : Z) (out stderr : string),
    answer st2 (shape (OpDestroy "blocklist")) =
      exec.Exited status out stderr ->
    status <> 0%Z ->
    fst (perform (OpDestroy "blocklist") st2) = Ok (Some (errors.New stderr)).
Proof.
  exact (@start_failure_error_is_empty broken_host (OpDestroy "blocklist")
           (@fresh broken_host sbin 0)
           (libError "fork/exec /usr/sbin/ipset: permission denied")
           eq_refl).
Defined.

Example Create_spawns :
  exec.spawned
    (world (snd (@Create listing_host "test" "hash:ip" ["timeout"; "300"]
                   (@fresh listing_host sbin 0)))) =
  [("/usr/sbin/ipset",
    ["/usr/sbin/ipset"; "create"; "test"; "hash:ip"; "timeout"; "300"])].
Proof. reflexivity. Qed.

Example Save_and_Restore_spawn :
  exec.spawned
    (world (snd (@Restore listing_host "/tmp/sets"
                   (snd (@Save listing_host "blocklist" "/tmp/sets"
                           (@fresh listing_host sbin 0)))))) =
  [("/usr/sbin/ipset", ["/usr/sbin/ipset"; "save"; "blocklist"; "-file";
                        "/tmp/sets"]);
   ("/usr/sbin/ipset", ["/usr/sbin/ipset"; "restore"; "-file"; "/tmp/sets"])].
Proof. reflexivity. Qed.

Example AddUnique_of_empty_strings :
  exec.spawned
    (world (snd (@AddUnique listing_host "" "" ["timeout"; "60"]
                   (@fresh listing_host sbin 0)))) =
  [("/usr/sbin/ipset",
    ["/usr/sbin/ipset"; "add"; ""; ""; "-exist"; "timeout"; "60"])].
Proof. reflexivity. Qed.

Example Destroy_in_use :
  exists e,
    fst (@Destroy in_use_host "blocklist" (@fresh in_use_host sbin 0)) =
      Ok (Some e) /\
    Error e = "ipset v7.x: Set cannot be destroyed: in use".
Proof. eexists. split; reflexivity. Qed.

Example Flush_succeeds_whatever_is_printed :
  fst (@Flush listing_host "blocklist" (@fresh listing_host sbin 0)) = Ok None.
Proof. reflexivity. Qed.

Example List_with_error_keeps_members :
  fst (@List denied_host "blocklist" (@fresh denied_host sbin 0)) =
  Ok (["10.0.0.1"],
      Some (errors.New
              "ipset v7.5: Kernel error received: Operation not permitted")).
Proof. reflexivity. Qed.

Example List_of_empty_set :
  fst (@List empty_set_host "blocklist" (@fresh empty_set_host sbin 0)) =
  Ok ([], None).
Proof. reflexivity. Qed.

Example List_without_marker_skips_line_zero :
  fst (@List unmarked_host "blocklist" (@fresh unmarked_host sbin 0)) =
  Ok (["10.0.0.2"; "10.0.0.3"], None).
Proof. reflexivity. Qed.

Example marker_with_carriage_return :
  is_marker ("  Members:" ++ String "013" EmptyString) = true.
Proof. reflexivity. Qed.

Example scan_stops_at_first_marker :
  members_of ("Members:" ++ nl ++ "Members:" ++ nl ++ "10.0.0.1" ++ nl) =
  ["Members:"; "10.0.0.1"].
Proof. reflexivity. Qed.

Example no_break_space_is_white_space :
  whitespace_only (String "194" (String "160" " ")) = true /\
  strings.TrimSpace (String "194" (String "160" " 10.0.0.1 ")) = "10.0.0.1".
Proof. split; reflexivity. Qed.

Example exit_error_message : Error (ExitError 2) = "exit status 2".
Proof. reflexivity. Qed.

Example members_without_marker :
  members_of ("Name: a" ++ nl ++ "10.0.0.1" ++ nl ++ nl ++ "10.0.0.2") =
  ["10.0.0.1"; "10.0.0.2"].
Proof. reflexivity. Qed.

Example members_are_not_trimmed :
  members_of (" Members: " ++ nl ++ "  10.0.0.1 " ++ nl ++ "   " ++ nl) =
  ["  10.0.0.1 "].
Proof. reflexivity. Qed.

Example New_finds_the_binary :
  @New listing_host 0 =
  (Some {| Path := "/usr/sbin/ipset"; Options := [] |}, None).
Proof. reflexivity. Qed.

Example New_without_binary :
  @New bare_host 0 =
  (None, Some (ErrNotFound "ipset")).
Proof. reflexivity. Qed.

(** * Further properties of the package *)

(** ** More on lines and the scan *)
Section MoreLines.

Lemma Split_snoc_newline (s : string) :
  strings.Split (s ++ nl) LF = strings.Split s LF ++ [EmptyString].
Proof.
  induction s as [| c t IH]; cbn [append strings.Split]; [reflexivity |].
  destruct (Ascii.eqb c LF); rewrite IH; [reflexivity |].
  pose proof (Split_nonempty t LF) as Hne.
  destruct (strings.Split t LF); [contradiction | reflexivity].
Qed.

Lemma Split_length (s : string) :
  length (strings.Split s LF) = S (count_newlines s).
Proof.
  induction s as [| c t IH]; cbn [strings.Split count_newlines];
    [reflexivity |].
  destruct (Ascii.eqb c LF); cbn [length]; [now rewrite IH |].
  pose proof (Split_nonempty t LF) as Hne.
  destruct (strings.Split t LF); [contradiction | exact IH].
Qed.

Lemma Split_lines_have_no_newline (s : string) :
  Forall (fun l => has_newline l = false) (strings.Split s LF).
Proof.
  induction s as [| c t IH]; cbn [strings.Split].
  - now constructor.
  - destruct (Ascii.eqb c LF) eqn:E; [now constructor |].
    destruct (strings.Split t LF) as [| h rest];
      [now repeat constructor; cbn; rewrite E |].
    inversion IH; subst. constructor; [| assumption].
    cbn [has_newline]. now rewrite E.
Qed.

Lemma find_start_snoc_blank (ls : list string) (i start : nat) :
  find_start i (ls ++ [EmptyString]) start = find_start i ls start.
Proof.
  revert i. induction ls as [| l ls IH]; intro i; cbn [app find_start].
  - reflexivity.
  - destruct (strings.TrimSpace l =? "Members:")%string;
      [reflexivity | apply IH].
Qed.

Lemma find_start_in_range (ls : list string) (i start : nat) :
  start < i + length ls -> find_start i ls start < i + length ls.
Proof.
  revert i. induction ls as [| l ls IH]; intros i Hs; cbn [find_start length].
  - exact Hs.
  - destruct (strings.TrimSpace l =? "Members:")%string; [lia |].
    cbn [length] in Hs. specialize (IH (S i)). lia.
Qed.

Lemma start_lt_lines (out : string) :
  find_start 0 (strings.Split out LF) 0 < length (strings.Split out LF).
Proof.
  apply (find_start_in_range _ 0 0). rewrite Split_length. lia.
Qed.

(** The scan either stops at the first marker line or finds none. *)
Lemma find_start_cases (ls : list string) (i start : nat) :
  (exists pre l suf,
     ls = pre ++ l :: suf /\
     Forall (fun x => is_marker x = false) pre /\
     is_marker l = true /\
     find_start i ls start = i + length pre) \/
  (Forall (fun x => is_marker x = false) ls /\ find_start i ls start = start).
Proof.
  revert i. induction ls as [| l ls IH]; intro i.
  - right. now split.
  - destruct (is_marker l) eqn:E.
    + left. exists [], l, ls. repeat split; [constructor | exact E |].
      cbn [find_start length]. unfold is_marker in E. rewrite E. lia.
    + destruct (IH (S i)) as [(pre & m & suf & -> & Hp & Hm & Hf) | [Hn Hf]].
      * left. exists (l :: pre), m, suf.
        repeat split; [now constructor | exact Hm |].
        cbn [app find_start length]. unfold is_marker in E. rewrite E, Hf. lia.
      * right. split; [now constructor |].
        cbn [find_start]. unfold is_marker in E. now rewrite E.
Qed.

Lemma marker_is_kept (l : string) : is_marker l = true -> kept l = true.
Proof.
  unfold is_marker, kept. intro E. apply String.eqb_eq in E. now rewrite E.
Qed.

Lemma members_of_snoc_newline (out : string) :
  members_of (out ++ nl) = members_of out.
Proof.
  unfold members_of. cbv zeta.
  rewrite Split_snoc_newline, find_start_snoc_blank.
  pose proof (start_lt_lines out) as Hlt.
  set (lines := strings.Split out LF) in *.
  set (start := find_start 0 lines 0) in *.
  rewrite skipn_app, filter_app.
  replace (start + 1 - length lines) with 0 by lia.
  cbn. now rewrite app_nil_r.
Qed.

End MoreLines.

(** ** The shape of every listing *)
Section ListShape.
Context {H : exec.Host}.

(** X1.  Whatever the child printed, its lines fall into a first part
    without marker, one line [l], and the rest; the members are the lines
    of the rest that do not trim to nothing, in their order; and [l] is
    either the first marker line or, when no line is a marker, the very
    first line. *)
Theorem List_reads_after_first_marker_or_line_zero
  (name : string) (st : State) :
  exists out err st' pre l suf,
    run ["list"; name] st = (Ok (out, err), st') /\
    List name st = (Ok (filter kept suf, err), st') /\
    strings.Split out LF = pre ++ l :: suf /\
    Forall (fun x => is_marker x = false) pre /\
    (is_marker l = true \/
     (pre = [] /\ is_marker l = false /\
      Forall (fun x => is_marker x = false) suf)).
Proof.
  destruct (run_returns ["list"; name] st) as (out & err & st' & Hrun).
  pose proof (List_from_run _ _ _ _ _ Hrun) as HL.
  unfold members_of in HL. cbv zeta in HL.
  destruct (find_start_cases (strings.Split out LF) 0 0)
    as [(pre & l & suf & E & Hp & Hm & Hf) | [Hn Hf]].
  - exists out, err, st', pre, l, suf.
    rewrite Hf, E, skipn_past in HL. now repeat split; auto.
  - pose proof (Split_nonempty out LF) as Hne.
    destruct (strings.Split out LF) as [| l suf] eqn:E; [contradiction |].
    exists out, err, st', [], l, suf.
    rewrite Hf in HL. cbn in HL. inversion Hn; subst.
    repeat split; auto.
Qed.

(** X2.  When the captured output is a header without marker, a marker
    line and then any text, the members are the lines of that text that
    do not trim to nothing, whatever the error. *)
Theorem List_after_header_and_marker (name : string) (st : State)
  (header : list string) (marker rest out : string)
  (err : option error) (st' : State) :
  run ["list"; name] st = (Ok (out, err), st') ->
  Forall plain_line header ->
  has_newline marker = false ->
  is_marker marker = true ->
  out = (unlines header ++ marker ++ nl ++ rest)%string ->
  List name st = (Ok (filter kept (strings.Split rest LF), err), st').
Proof.
  intros Hrun Hh Hn Hm ->. rewrite (List_from_run _ _ _ _ _ Hrun).
  now rewrite members_of_after_marker.
Qed.

(** X3.  The start index the scan leaves always names an existing line
    of the split output: the slice after it cannot be out of range, and
    the early return is taken exactly when that line is the last one. *)
Theorem start_index_names_a_line (out : string) :
  let lines := strings.Split out LF in
  let start := find_start 0 lines 0 in
  (start < length lines)%nat /\
  ((length lines <=? start + 1)%nat = true <-> length lines = start + 1).
Proof.
  cbv zeta. pose proof (start_lt_lines out) as Hlt. split; [exact Hlt |].
  rewrite Nat.leb_le. lia.
Qed.

(** X4.  No member holds a newline: every member is a single line. *)
Theorem members_are_single_lines (name : string) (st : State) :
  exists out err ms st',
    run ["list"; name] st = (Ok (out, err), st') /\
    List name st = (Ok (ms, err), st') /\
    Forall (fun m => has_newline m = false) ms.
Proof.
  destruct (run_returns ["list"; name] st) as (out & err & st' & Hrun).
  exists out, err, (members_of out), st'.
  split; [exact Hrun |]. split; [now apply List_from_run |].
  apply Forall_forall. intros m Hin. unfold members_of in Hin.
  apply filter_In in Hin as [Hin _]. apply In_skipn in Hin.
  pose proof (Split_lines_have_no_newline out) as Hall.
  rewrite Forall_forall in Hall. now apply Hall.
Qed.

(** X5.  There are at most as many members as the output has newline
    bytes; an output without a newline gives no member at all. *)
Theorem members_at_most_newlines (name : string) (st : State) :
  exists out err ms st',
    run ["list"; name] st = (Ok (out, err), st') /\
    List name st = (Ok (ms, err), st') /\
    length ms <= count_newlines out /\
    (has_newline out = false -> ms = []).
Proof.
  destruct (run_returns ["list"; name] st) as (out & err & st' & Hrun).
  exists out, err, (members_of out), st'.
  split; [exact Hrun |]. split; [now apply List_from_run |].
  assert (Hlen : length (members_of out) <= count_newlines out).
  { unfold members_of. cbv zeta.
    etransitivity; [apply filter_length_le |].
    rewrite length_skipn, Split_length. lia. }
  split; [exact Hlen |].
  intro Hn. assert (count_newlines out = 0) as E.
  { clear -Hn. induction out as [| c t IH]; [reflexivity |].
    cbn in Hn |- *. apply orb_false_iff in Hn as [Hc Ht].
    rewrite Hc. now apply IH. }
  rewrite E in Hlen. now destruct (members_of out).
Qed.

(** X12.  The scan does not look past the first marker: a later line
    that trims to [Members:] is returned as a member. *)
Theorem later_marker_is_a_member (name : string) (st : State)
  (header : list string) (marker rest out l : string)
  (err : option error) (st' : State) :
  run ["list"; name] st = (Ok (out, err), st') ->
  Forall plain_line header ->
  has_newline marker = false ->
  is_marker marker = true ->
  out = (unlines header ++ marker ++ nl ++ rest)%string ->
  In l (strings.Split rest LF) ->
  is_marker l = true ->
  exists ms, List name st = (Ok (ms, err), st') /\ In l ms.
Proof.
  intros Hrun Hh Hn Hm -> Hin Hl.
  exists (filter kept (strings.Split rest LF)). split.
  - rewrite (List_from_run _ _ _ _ _ Hrun).
    now rewrite members_of_after_marker.
  - apply filter_In. split; [exact Hin | now apply marker_is_kept].
Qed.

(** X11.  When no child could be started the list operation returns no
    member and the error with the empty message. *)
Theorem List_when_not_started (name : string) (st : State) (cause : error) :
  answer st ["list"; name] = exec.NotStarted cause ->
  List name st =
  (Ok ([], Some (errors.New EmptyString)), after_run st ["list"; name]).
Proof. intro E. rewrite List_eq, E. reflexivity. Qed.

End ListShape.

(** ** Calls and how they relate *)
Section Calls.
Context {H : exec.Host}.

(** X7.  [AddUnique] is [Add] with [-exist] put before the extra
    options: the same process, the same result, the same state. *)
Theorem AddUnique_is_Add_with_exist
  (name entry : string) (options : list string) (st : State) :
  AddUnique name entry options st = Add name entry ("-exist" :: options) st.
Proof.
  change (perform (OpAddUnique name entry options) st =
          perform (OpAdd name entry ("-exist" :: options)) st).
  now rewrite !perform_eq.
Qed.

(** X8.  A handle made by [New] has no default options and holds the
    path the lookup returned; a call on it runs exactly that path, with
    the same path as argument zero, and leaves the handle as [New] made
    it. *)
Theorem New_then_call (o : exec.OS) (h : IPSet) (op : Op) :
  New o = (Some h, None) ->
  exec.LookPath o "ipset" = (Path h, None) /\
  Options h = [] /\
  exec.spawned (world (snd (perform op (fresh h o)))) =
    [(Path h, Path h :: shape op)] /\
  this (snd (perform op (fresh h o))) = h.
Proof.
  unfold New. destruct (exec.LookPath o "ipset") as [p [e |]];
    [discriminate |].
  intro E. injection E as <-. rewrite perform_eq. repeat split.
Qed.

(** X9.  Calls made one after another all return, one error slot each;
    the processes asked for are those of the calls, in the order of the
    calls, one per call whether it failed or not; and the handle is the
    same at the end. *)
Theorem calls_in_sequence (ops : list Op) (st : State) :
  exists errs st',
    perform_all ops st = (Ok errs, st') /\
    length errs = length ops /\
    this st' = this st /\
    exec.spawned (world st') =
      exec.spawned (world st)
      ++ map (fun o => process_of (this st) (shape o)) ops.
Proof.
  revert st. induction ops as [| o ops IH]; intro st; cbn [perform_all].
  - exists [], st. cbn. now rewrite app_nil_r.
  - unfold bind at 1. rewrite perform_eq.
    destruct (IH (after_run st (shape o))) as (errs & st' & E & Hl & Ht & Hs).
    unfold bind at 1. rewrite E.
    eexists _, st'. split; [reflexivity |].
    cbn [length map]. repeat split; [now rewrite Hl | exact Ht |].
    rewrite Hs. cbn [after_run world this exec.spawned].
    now rewrite <- app_assoc.
Qed.

End Calls.

(** ** What a caller cannot tell apart *)

(** X10.  A child that fails without writing on standard error and a
    child that could not be started give the same returned value: the
    error with the empty message. *)
Theorem silent_failure_looks_like_no_start
  (H1 H2 : exec.Host) (o1 o2 : Op)
  (st1 : @State H1) (st2 : @State H2)
  (cause : error) (status : Z) (out : string) :
  @answer H1 st1 (shape o1) = exec.NotStarted cause ->
  @answer H2 st2 (shape o2) = exec.Exited status out EmptyString ->
  status <> 0%Z ->
  fst (@perform H1 o1 st1) = Ok (Some (errors.New EmptyString)) /\
  fst (@perform H2 o2 st2) = Ok (Some (errors.New EmptyString)).
Proof.
  intros E1 E2 Hs. rewrite !perform_result, E1, E2. cbn [run_result snd].
  apply Z.eqb_neq in Hs. now rewrite Hs.
Qed.

(** X6.  A newline more at the end of the output changes nothing: the
    listing of an output and of the same output with one more newline
    have the same members. *)
Theorem trailing_newline_changes_nothing
  (H1 H2 : exec.Host) (name1 name2 : string)
  (st1 st1' : @State H1) (st2 st2' : @State H2)
  (out : string) (err1 err2 : option error) :
  @run H1 ["list"; name1] st1 = (Ok (out, err1), st1') ->
  @run H2 ["list"; name2] st2 = (Ok ((out ++ nl)%string, err2), st2') ->
  exists ms,
    @List H1 name1 st1 = (Ok (ms, err1), st1') /\
    @List H2 name2 st2 = (Ok (ms, err2), st2').
Proof.
  intros R1 R2. exists (members_of out). split.
  - now apply List_from_run.
  - rewrite (List_from_run _ _ _ _ _ R2). now rewrite members_of_snoc_newline.
Qed.

(** ** The further properties at work on the small hosts *)

Lemma List_after_header_and_marker_witness :
  @List denied_host "blocklist" (@fresh denied_host sbin 0) =
  (Ok (["10.0.0.1"],
       Some (errors.New
               "ipset v7.5: Kernel error received: Operation not permitted")),
   @after_run denied_host (@fresh denied_host sbin 0) ["list"; "blocklist"]).
Proof.
  apply (@List_after_header_and_marker denied_host "blocklist"
           (@fresh denied_host sbin 0) [] "Members:" ("10.0.0.1" ++ nl)
           ("Members:" ++ nl ++ "10.0.0.1" ++ nl)).
  - reflexivity.
  - constructor.
  - reflexivity.
  - reflexivity.
  - reflexivity.
Defined.

Lemma later_marker_is_a_member_witness :
  exists ms,
    @List two_marker_host "blocklist" (@fresh two_marker_host sbin 0) =
    (Ok (ms, None),
     @after_run two_marker_host (@fresh two_marker_host sbin 0)
       ["list"; "blocklist"]) /\
    In "Members:" ms.
Proof.
  apply (@later_marker_is_a_member two_marker_host "blocklist"
           (@fresh two_marker_host sbin 0) [] "Members:"
           ("Members:" ++ nl ++ "10.0.0.1" ++ nl)
           ("Members:" ++ nl ++ "Members:" ++ nl ++ "10.0.0.1" ++ nl)
           "Members:").
  - reflexivity.
  - constructor.
  - reflexivity.
  - reflexivity.
  - reflexivity.
  - left. reflexivity.
  - reflexivity.
Defined.

Lemma List_when_not_started_witness :
  @List broken_host "blocklist" (@fresh broken_host sbin 0) =
  (Ok ([], Some (errors.New EmptyString)),
   @after_run broken_host (@fresh broken_host sbin 0) ["list"; "blocklist"]).
Proof.
  exact (@List_when_not_started broken_host "blocklist"
           (@fresh broken_host sbin 0)
           (libError "fork/exec /usr/sbin/ipset: permission denied")
           eq_refl).
Defined.

Lemma New_then_call_witness :
  @exec.LookPath listing_host 0 "ipset" = (Path sbin, None) /\
  Options sbin = [] /\
  exec.spawned
    (world (snd (@perform listing_host (OpFlush "blocklist")
                   (@fresh listing_host sbin 0)))) =
    [(Path sbin, Path sbin :: shape (OpFlush "blocklist"))] /\
  this (snd (@perform listing_host (OpFlush "blocklist")
               (@fresh listing_host sbin 0))) = sbin.
Proof.
  exact (@New_then_call listing_host 0 sbin (OpFlush "blocklist") eq_refl).
Defined.

Lemma silent_failure_looks_like_no_start_witness :
  fst (@perform broken_host (OpTest "blocklist" "10.0.0.1" [])
         (@fresh broken_host sbin 0)) =
    Ok (Some (errors.New EmptyString)) /\
  fst (@perform silent_host (OpTest "blocklist" "10.0.0.1" [])
         (@fresh silent_host sbin 0)) =
    Ok (Some (errors.New EmptyString)).
Proof.
  apply (@silent_failure_looks_like_no_start broken_host silent_host
           (OpTest "blocklist" "10.0.0.1" [])
           (OpTest "blocklist" "10.0.0.1" [])
           (@fresh broken_host sbin 0) (@fresh silent_host sbin 0)
           (libError "fork/exec /usr/sbin/ipset: permission denied")
           1%Z EmptyString).
  - reflexivity.
  - reflexivity.
  - discriminate.
Defined.

Lemma trailing_newline_changes_nothing_witness :
  exists ms,
    @List chopped_host "blocklist" (@fresh chopped_host sbin 0) =
    (Ok (ms, None),
     @after_run chopped_host (@fresh chopped_host sbin 0)
       ["list"; "blocklist"]) /\
    @List listing_host "blocklist" (@fresh listing_host sbin 0) =
    (Ok (ms, None),
     @after_run listing_host (@fresh listing_host sbin 0)
       ["list"; "blocklist"]).
Proof.
  apply (@trailing_newline_changes_nothing chopped_host listing_host
           "blocklist" "blocklist"
           (@fresh chopped_host sbin 0) _ (@fresh listing_host sbin 0) _
           (unlines sample_header ++ "Members:" ++ nl
            ++ "10.0.0.1" ++ nl ++ nl ++ "10.0.0.2")).
  - reflexivity.
  - reflexivity.
Defined.

Example three_calls_in_a_row :
  let r := @perform_all silent_host
             [OpCreate "s" "hash:ip" []; OpAdd "s" "10.0.0.1" [];
              OpDestroy "s"]
             (@fresh silent_host sbin 0) in
  fst r = Ok [Some (errors.New EmptyString); Some (errors.New EmptyString);
              Some (errors.New EmptyString)] /\
  exec.spawned (world (snd r)) =
    [("/usr/sbin/ipset", ["/usr/sbin/ipset"; "create"; "s"; "hash:ip"]);
     ("/usr/sbin/ipset", ["/usr/sbin/ipset"; "add"; "s"; "10.0.0.1"]);
     ("/usr/sbin/ipset", ["/usr/sbin/ipset"; "destroy"; "s"])].
Proof. split; reflexivity. Qed.

(** * Construction and the search path *)

(** ** Absolute paths stay absolute *)
Section Paths.

Lemma Split_elements_not_rooted (s : string) :
  Forall (fun e => filepath.IsAbs e = false)
    (strings.Split s filepath.Separator).
Proof.
  induction s as [| c t IH]; cbn [strings.Split].
  - now constructor.
  - destruct (Ascii.eqb c filepath.Separator) eqn:E; [now constructor |].
    destruct (strings.Split t filepath.Separator) as [| h rest];
      [now repeat constructor |].
    inversion IH; subst. now constructor.
Qed.

Lemma clean_elements_are_elements (rooted : bool) (elems out : list string) :
  Forall (fun e => filepath.IsAbs e = false) elems ->
  Forall element out ->
  Forall element (filepath.clean_elements rooted elems out).
Proof.
  intro He. revert out.
  induction He as [| e rest Habs _ IH]; intros out Hout;
    cbn [filepath.clean_elements].
  - now apply Forall_rev.
  - destruct (e =? "")%string eqn:E0; [now apply IH |].
    destruct (e =? ".")%string; [now apply IH |].
    destruct (e =? "..")%string.
    + destruct out as [| top below].
      * destruct rooted; apply IH; [constructor |].
        repeat constructor. discriminate.
      * inversion Hout; subst.
        destruct (top =? "..")%string; apply IH; [| assumption].
        constructor; [| assumption]. split; [reflexivity | discriminate].
    + apply IH. constructor; [| assumption].
      split; [exact Habs |]. now apply String.eqb_neq.
Qed.

Lemma concat_elements_not_rooted (l : list string) :
  Forall element l -> filepath.IsAbs (String.concat "/" l) = false.
Proof.
  destruct 1 as [| e rest [Habs Hne] _]; [reflexivity |].
  cbn [String.concat]. destruct e as [| c t]; [contradiction |].
  destruct rest; exact Habs.
Qed.

Lemma IsAbs_Clean (path : string) :
  filepath.IsAbs (filepath.Clean path) = filepath.IsAbs path.
Proof.
  unfold filepath.Clean. destruct (path =? "")%string eqn:E.
  - apply String.eqb_eq in E. now subst.
  - cbv zeta. destruct (filepath.IsAbs path) eqn:R; [reflexivity |].
    set (body := String.concat "/" _).
    assert (Hb : filepath.IsAbs body = false).
    { apply concat_elements_not_rooted, clean_elements_are_elements;
        [apply Split_elements_not_rooted | constructor]. }
    destruct (body =? "")%string; [reflexivity | exact Hb].
Qed.

Lemma IsAbs_Join (dir file : string) :
  dir <> EmptyString ->
  filepath.IsAbs (filepath.Join dir file) = filepath.IsAbs dir.
Proof.
  intro Hne. unfold filepath.Join.
  apply String.eqb_neq in Hne. rewrite Hne. cbn [negb].
  rewrite IsAbs_Clean. destruct dir as [| c t]; [discriminate | reflexivity].
Qed.

Lemma entry_nonempty (dir : string) : lp_unix.entry dir <> EmptyString.
Proof.
  unfold lp_unix.entry. destruct (dir =? "")%string eqn:E; [discriminate |].
  now apply String.eqb_neq.
Qed.

Lemma entry_of_absolute (dir : string) :
  filepath.IsAbs dir = true -> lp_unix.entry dir = dir.
Proof. destruct dir; [discriminate | reflexivity]. Qed.

End Paths.

(** ** The loop over the search path *)
Section Search.
Variable env : lp_unix.Env.
Variable file : string.

Lemma search_nowhere (dirs : list string) :
  Forall (fun dir => ~ lp_unix.hits env file dir) dirs ->
  lp_unix.search env file dirs = (EmptyString, Some (ErrNotFound file)).
Proof.
  induction 1 as [| dir rest Hd _ IH]; cbn [lp_unix.search]; [reflexivity |].
  unfold lp_unix.hits in Hd.
  destruct (lp_unix.findExecutable env _); [exact IH | now contradiction Hd].
Qed.

Lemma search_first (before after : list string) (dir : string) :
  Forall (fun d => ~ lp_unix.hits env file d) before ->
  lp_unix.hits env file dir ->
  lp_unix.search env file (before ++ dir :: after) =
  (filepath.Join (lp_unix.entry dir) file,
   if negb (filepath.IsAbs (filepath.Join (lp_unix.entry dir) file))
      && lp_unix.errdot env
   then Some (lp_unix.ErrDot file) else None).
Proof.
  intros Hb Hd.
  induction Hb as [| d rest Hn _ IH]; cbn [app lp_unix.search].
  - unfold lp_unix.hits in Hd. rewrite Hd.
    now destruct (negb _ && _).
  - unfold lp_unix.hits in Hn.
    destruct (lp_unix.findExecutable env _); [exact IH | now contradiction Hn].
Qed.

Lemma search_cases (dirs : list string) :
  Forall (fun dir => ~ lp_unix.hits env file dir) dirs \/
  exists before dir after,
    dirs = before ++ dir :: after /\
    Forall (fun d => ~ lp_unix.hits env file d) before /\
    lp_unix.hits env file dir.
Proof.
  induction dirs as [| d rest IH]; [now left |].
  destruct (lp_unix.findExecutable env
              (filepath.Join (lp_unix.entry d) file)) as [e |] eqn:E.
  - assert (Hd : ~ lp_unix.hits env file d)
      by (unfold lp_unix.hits; rewrite E; discriminate).
    destruct IH as [Hn | (before & dir & after & -> & Hb & Hh)].
    + left. now constructor.
    + right. exists (d :: before), dir, after.
      repeat split; [now constructor | exact Hh].
  - right. exists [], d, rest. repeat split; [constructor | exact E].
Qed.

End Search.

(** ** [New] on a machine with Go's lookup *)
Section Construction.
Context {H : exec.Host}.

(** C7, as the code has it.  On a machine whose lookup is Go's,
    [New] follows the search path.  When no entry holds an executable
    [ipset] it returns no handle and the not-found error.  Otherwise it
    stops at the first entry that does: the path is that entry joined
    with [ipset], absolute exactly when the entry is; [New] returns it in
    a handle without default options, except that a relative match is
    refused with the lookup's error, and no handle, where that check is
    on.  One of the two cases always applies.  When every entry of the
    search path is absolute, construction is as specified: a handle with
    an absolute path and no options, or the not-found error, the latter
    exactly when no entry holds the binary. *)
Theorem New_follows_the_search_path (env : lp_unix.Env) (o : exec.OS) :
  exec.LookPath o "ipset" = lp_unix.LookPath env "ipset" ->
  let dirs := filepath.SplitList (lp_unix.PATH env) in
  (lp_unix.nowhere env "ipset" ->
   New o = (None, Some (ErrNotFound "ipset"))) /\
  (forall before dir after,
     dirs = before ++ dir :: after ->
     Forall (fun d => ~ lp_unix.hits env "ipset" d) before ->
     lp_unix.hits env "ipset" dir ->
     let p := filepath.Join (lp_unix.entry dir) "ipset" in
     filepath.IsAbs p = filepath.IsAbs (lp_unix.entry dir) /\
     New o =
       if filepath.IsAbs p || negb (lp_unix.errdot env)
       then (Some {| Path := p; Options := [] |}, None)
       else (None, Some (lp_unix.ErrDot "ipset"))) /\
  (lp_unix.nowhere env "ipset" \/
   exists before dir after,
     dirs = before ++ dir :: after /\
     Forall (fun d => ~ lp_unix.hits env "ipset" d) before /\
     lp_unix.hits env "ipset" dir) /\
  (Forall (fun d => filepath.IsAbs d = true) dirs ->
   construction_as_specified o /\
   (New o = (None, Some (ErrNotFound "ipset")) <->
    lp_unix.nowhere env "ipset")).
Proof.
  intros Hlaw dirs.
  assert (Hno : lp_unix.nowhere env "ipset" ->
                New o = (None, Some (ErrNotFound "ipset"))).
  { intro Hn. unfold New. rewrite Hlaw. unfold lp_unix.LookPath.
    change (lp_unix.has_slash "ipset") with false. cbv iota.
    now rewrite (search_nowhere _ _ _ Hn). }
  assert (Hhit : forall before dir after,
     dirs = before ++ dir :: after ->
     Forall (fun d => ~ lp_unix.hits env "ipset" d) before ->
     lp_unix.hits env "ipset" dir ->
     let p := filepath.Join (lp_unix.entry dir) "ipset" in
     filepath.IsAbs p = filepath.IsAbs (lp_unix.entry dir) /\
     New o =
       if filepath.IsAbs p || negb (lp_unix.errdot env)
       then (Some {| Path := p; Options := [] |}, None)
       else (None, Some (lp_unix.ErrDot "ipset"))).
  { intros before dir after E Hb Hd p.
    split; [apply IsAbs_Join, entry_nonempty |].
    unfold New. rewrite Hlaw. unfold lp_unix.LookPath.
    change (lp_unix.has_slash "ipset") with false. cbv iota.
    fold dirs. rewrite E, (search_first _ _ _ _ _ Hb Hd). fold p.
    destruct (filepath.IsAbs p), (lp_unix.errdot env); reflexivity. }
  split; [exact Hno |]. split; [exact Hhit |].
  split; [apply search_cases |].
  intro Habs.
  destruct (search_cases env "ipset" dirs)
    as [Hn | (before & dir & after & E & Hb & Hd)].
  - split; [right; now apply Hno | split; [intros _; exact Hn | exact Hno]].
  - destruct (Hhit _ _ _ E Hb Hd) as [Hp HN]. cbv zeta in Hp, HN.
    assert (Hdir : filepath.IsAbs dir = true).
    { rewrite Forall_forall in Habs. apply Habs. rewrite E.
      apply in_or_app. right. now left. }
    rewrite (entry_of_absolute _ Hdir) in Hp, HN.
    rewrite Hp, Hdir in HN. cbn [orb] in HN.
    split.
    + left. eexists. split; [exact HN |]. cbn [Path Options].
      now rewrite Hp, Hdir.
    + split.
      * rewrite HN. discriminate.
      * intro Hn. exfalso. unfold lp_unix.nowhere in Hn. fold dirs in Hn.
        rewrite E in Hn. apply Forall_app in Hn as [_ Hn].
        inversion Hn; subst. contradiction.
Qed.

End Construction.

(** With the current directory first on the search path and an
    executable [ipset] in it, construction is not as specified: the
    handle holds a relative path, or, where relative matches are refused,
    construction fails with another error than not-found although the
    binary is there. *)
Lemma New_on_relative_search_path :
  ~ @construction_as_specified (unix_host (dot_env false) quiet) 0 /\
  ~ @construction_as_specified (unix_host (dot_env true) quiet) 0.
Proof.
  split; intros [(h & E & Habs & _) | E].
  - vm_compute in E. injection E as <-. discriminate Habs.
  - vm_compute in E. discriminate E.
  - vm_compute in E. discriminate E.
  - vm_compute in E. discriminate E.
Qed.

Lemma New_follows_the_search_path_witness :
  let env := sbin_env in
  let H := unix_host sbin_env quiet in
  let dirs := filepath.SplitList (lp_unix.PATH env) in
  (lp_unix.nowhere env "ipset" ->
   @New H 0 = (None, Some (ErrNotFound "ipset"))) /\
  (forall before dir after,
     dirs = before ++ dir :: after ->
     Forall (fun d => ~ lp_unix.hits env "ipset" d) before ->
     lp_unix.hits env "ipset" dir ->
     let p := filepath.Join (lp_unix.entry dir) "ipset" in
     filepath.IsAbs p = filepath.IsAbs (lp_unix.entry dir) /\
     @New H 0 =
       if filepath.IsAbs p || negb (lp_unix.errdot env)
       then (Some {| Path := p; Options := [] |}, None)
       else (None, Some (lp_unix.ErrDot "ipset"))) /\
  (lp_unix.nowhere env "ipset" \/
   exists before dir after,
     dirs = before ++ dir :: after /\
     Forall (fun d => ~ lp_unix.hits env "ipset" d) before /\
     lp_unix.hits env "ipset" dir) /\
  (Forall (fun d => filepath.IsAbs d = true) dirs ->
   @construction_as_specified H 0 /\
   (@New H 0 = (None, Some (ErrNotFound "ipset")) <->
    lp_unix.nowhere env "ipset")).
Proof.
  exact (@New_follows_the_search_path (unix_host sbin_env quiet)
           sbin_env 0 eq_refl).
Defined.

Example New_on_absolute_search_path :
  @New (unix_host sbin_env quiet) 0 =
  (Some {| Path := "/usr/sbin/ipset"; Options := [] |}, None).
Proof. reflexivity. Qed.

Example New_with_current_directory_first :
  @New (unix_host (dot_env false) quiet) 0 =
    (Some {| Path := "ipset"; Options := [] |}, None) /\
  @New (unix_host (dot_env true) quiet) 0 =
    (None, Some (lp_unix.ErrDot "ipset")).
Proof. split; reflexivity. Qed.

Example sbin_search_path_is_absolute :
  Forall (fun d => filepath.IsAbs d = true)
    (filepath.SplitList (lp_unix.PATH sbin_env)) /\
  @construction_as_specified (unix_host sbin_env quiet) 0.
Proof.
  split; [repeat constructor |].
  left. eexists. split; [reflexivity | split; reflexivity].
Qed.
